(** * protekt-docs: the homepage feature list and the site configuration

  A shallow embedding of the two pieces of TypeScript of the repository:

  - [src/components/HomepageFeatures/index.tsx]: the constant [FeatureList],
    the [Feature] component and the [HomepageFeatures] component;
  - [docusaurus.config.ts]: the object literal [config];
  - the JavaScript of the access-control guide that comes with the
    component: the permission checks of the front end and the middleware of
    the back end.

  JavaScript code runs in an ambient runtime (a clock, a random number
  generator, module-level bindings).  Both files are embedded in one small
  state monad over that runtime, so that what a piece of code reads from
  it, and what it leaves untouched, is visible in its definition. *)

From Stdlib Require Import ZArith List String Ascii Bool Lia DecimalString.
Import ListNotations.
Open Scope string_scope.
Set Warnings "-register-all".

(** ** The JavaScript runtime *)

Module JS.

(** A [Date] object, as far as this repository observes one: its time value
    (milliseconds since the epoch) and the calendar year [getFullYear()]
    reports for it in the local time zone. *)
Record Date := mkDate {
  valueOf : Z;
  getFullYear : Z
}.

(** The runtime a module is evaluated in: the wall clock, the state behind
    [Math.random], and the module-level bindings of the module ([Heap]). *)
Record World (Heap : Type) := mkWorld {
  now : Date;
  random_state : Z;
  module_scope : Heap
}.
Arguments mkWorld {Heap} _ _ _.
Arguments now {Heap} _.
Arguments random_state {Heap} _.
Arguments module_scope {Heap} _.

(** Evaluation of an expression: it may read and write the runtime. *)
Definition Eval (Heap A : Type) : Type := World Heap -> A * World Heap.

Definition ret {Heap A} (a : A) : Eval Heap A := fun w => (a, w).

Definition bind {Heap A B} (m : Eval Heap A) (k : A -> Eval Heap B)
  : Eval Heap B :=
  fun w => let (a, w') := m w in k a w'.

Declare Scope eval_scope.
Delimit Scope eval_scope with eval.
Notation "x <- m ;; k" := (bind m (fun x => k))
  (at level 61, m at next level, right associativity) : eval_scope.

(** [new Date()]: a reading of the clock. *)
Definition new_Date {Heap} : Eval Heap Date := fun w => (now w, w).

(** A read of the module-level bindings. *)
Definition read_scope {Heap} : Eval Heap Heap := fun w => (module_scope w, w).

(** A module-level declaration: (re)binds the module scope. *)
Definition bind_scope {Heap} (h : Heap) : Eval Heap unit :=
  fun w => (tt, mkWorld (now w) (random_state w) h).

(** [Array.prototype.map]: the callback is called once per element, in
    ascending index order, with the element and its index. *)
Fixpoint Array_map_from {Heap A B} (idx : nat) (f : A -> nat -> Eval Heap B)
    (l : list A) : Eval Heap (list B) :=
  match l with
  | [] => ret []
  | a :: l' =>
      (b <- f a idx ;;
       bs <- Array_map_from (S idx) f l' ;;
       ret (b :: bs))%eval
  end.

Definition Array_map {Heap A B} (f : A -> nat -> Eval Heap B) (l : list A)
  : Eval Heap (list B) :=
  Array_map_from 0 f l.

(** The list [Array_map] builds when the callback has no effect. *)
Fixpoint mapi_from {A B} (idx : nat) (g : A -> nat -> B) (l : list A)
  : list B :=
  match l with
  | [] => []
  | a :: l' => g a idx :: mapi_from (S idx) g l'
  end.

(** [String(n)] for an integral number [n], as a template literal
    [`${n}`] applies it. *)
Definition Number_toString (n : Z) : string :=
  NilZero.string_of_int (Z.to_int n).

(** [n] invocations of [m] in a row, keeping every result. *)
Fixpoint repeat_eval {Heap A} (n : nat) (m : Eval Heap A)
  : Eval Heap (list A) :=
  match n with
  | O => ret []
  | S n' => (a <- m ;; r <- repeat_eval n' m ;; ret (a :: r))%eval
  end.

End JS.

(** ** React element trees *)

Module React.

(** A component that is not a function of this repository: the theme's
    [Heading], or the component a bundler makes of an [.svg] file
    ([require(path).default]). *)
Inductive Component :=
| Heading
| SvgModule (path : string).

Inductive ElementType :=
| Host (tag : string)
| Comp (c : Component).

(** The value of a prop: a string, or a class name looked up in the CSS
    module [styles.module.css] ([styles.name]). *)
Inductive PropValue :=
| PStr (s : string)
| PStyle (name : string).

(** [ReactNode].  An element of a function component of this repository
    ([RCall]) is kept with what the component returns for its props: React
    renders such an element by calling the function. *)
Inductive ReactNode :=
| RText (s : string)
| RFragment (children : list ReactNode)
| RElement (type : ElementType) (props : list (string * PropValue))
           (children : list ReactNode)
| RCall (component : string) (key : option nat) (rendered : ReactNode).

(** [clsx(...)]: the arguments that are non-empty strings, joined by a
    space. *)
Definition clsx (args : list string) : string :=
  String.concat " " (filter (fun s => negb (s =? EmptyString)) args).

(** *** Observations of a tree *)

Definition children_of (n : ReactNode) : list ReactNode :=
  match n with
  | RText _ => []
  | RFragment cs => cs
  | RElement _ _ cs => cs
  | RCall _ _ r => [r]
  end.

(** The subtree reached by taking, at each level, the child of the given
    index. Paths compare like document order. *)
Fixpoint subtree_at (path : list nat) (n : ReactNode) : option ReactNode :=
  match path with
  | [] => Some n
  | i :: rest =>
      match nth_error (children_of n) i with
      | Some c => subtree_at rest c
      | None => None
      end
  end.

Fixpoint get_prop (name : string) (props : list (string * PropValue))
  : option PropValue :=
  match props with
  | [] => None
  | (k, v) :: rest => if k =? name then Some v else get_prop name rest
  end.

(** The text a tree displays. *)
Fixpoint textContent (n : ReactNode) : string :=
  match n with
  | RText s => s
  | RFragment cs => String.concat EmptyString (map textContent cs)
  | RElement _ _ cs => String.concat EmptyString (map textContent cs)
  | RCall _ _ r => textContent r
  end.

(** Document order on paths: lexicographic, a prefix before its
    extensions. *)
Fixpoint path_before (p q : list nat) : bool :=
  match p, q with
  | [], [] => false
  | [], _ :: _ => true
  | _ :: _, [] => false
  | i :: p', j :: q' =>
      if Nat.ltb i j then true
      else if Nat.eqb i j then path_before p' q' else false
  end.

End React.

(** ** [src/components/HomepageFeatures/index.tsx] *)

Module HomepageFeaturesModule.
Import JS React.
Local Open Scope eval_scope.

Record FeatureItem := mkFeatureItem {
  title : string;
  Svg : Component;
  description : ReactNode
}.

(** The module-level binding [FeatureList] is an array object: the module
    scope of this file holds its elements. *)
Definition Scope : Type := list FeatureItem.

(** The array literal bound to [FeatureList].  JSX text is trimmed line by
    line and the lines are joined by one space; [&apos;] is the
    apostrophe. *)
Definition FeatureList : list FeatureItem :=
  [ {| title := "Easy Integration";
       Svg := SvgModule "@site/static/img/undraw_docusaurus_mountain.svg";
       description :=
         RFragment
           [RText "Protekt was designed from the ground up to be easily integrated into any application. Get secure authentication up and running in under 30 minutes."] |};
    {| title := "Focus on Your Product";
       Svg := SvgModule "@site/static/img/undraw_docusaurus_tree.svg";
       description :=
         RFragment
           [RText "Protekt handles all the complex authentication logic, so you can focus on building amazing features. We'll take care of security and compliance."] |};
    {| title := "Developer-First APIs";
       Svg := SvgModule "@site/static/img/undraw_docusaurus_react.svg";
       description :=
         RFragment
           [RText "Built with developers in mind. Clean REST APIs, comprehensive SDKs, and detailed documentation to get you started quickly."] |} ].

(** Evaluation of the module's top level: [const FeatureList = [...]]. *)
Definition load_module : Eval Scope unit := bind_scope FeatureList.

(** [function Feature({title, Svg, description})]. *)
Definition Feature (props : FeatureItem) : Eval Scope ReactNode :=
  ret
    (RElement (Host "div") [("className", PStr (clsx ["col col--4"]))]
       [ RElement (Host "div") [("className", PStr "text--center")]
           [ RElement (Comp (Svg props))
               [("className", PStyle "featureSvg"); ("role", PStr "img")]
               [] ];
         RElement (Host "div")
           [("className", PStr "text--center padding-horiz--md")]
           [ RElement (Comp Heading) [("as", PStr "h3")]
               [RText (title props)];
             RElement (Host "p") [] [description props] ] ]).

(** [export default function HomepageFeatures()]. *)
Definition HomepageFeatures : Eval Scope ReactNode :=
  list_ <- read_scope ;;
  blocks <- Array_map
              (fun props idx =>
                 r <- Feature props ;;
                 ret (RCall "Feature" (Some idx) r))
              list_ ;;
  ret
    (RElement (Host "section") [("className", PStyle "features")]
       [ RElement (Host "div") [("className", PStr "container")]
           [ RElement (Host "div") [("className", PStr "row")] blocks ] ]).

(** *** What a reader of the page sees of the output *)

(** The blocks of a rendered section: the children of its row. *)
Definition blocks_of (section : ReactNode) : option (list ReactNode) :=
  option_map children_of (subtree_at [0; 0] section).

(** Where the parts of a block are, from the element [Feature] returns. *)
Definition icon_region_path : list nat := [0].
Definition icon_path : list nat := [0; 0].
Definition text_region_path : list nat := [1].
Definition heading_path : list nat := [1; 0].
Definition body_path : list nat := [1; 1].

(** The graphic shown by a node: a childless component element and its
    [role]. *)
Definition as_graphic (n : ReactNode) : option (Component * option PropValue) :=
  match n with
  | RElement (Comp c) props [] => Some (c, get_prop "role" props)
  | _ => None
  end.

(** The heading shown by a node: its level and its content. *)
Definition as_heading (n : ReactNode) : option (PropValue * list ReactNode) :=
  match n with
  | RElement (Comp Heading) props cs =>
      match get_prop "as" props with
      | Some lvl => Some (lvl, cs)
      | None => None
      end
  | _ => None
  end.

(** The paragraph shown by a node: its content. *)
Definition as_paragraph (n : ReactNode) : option (list ReactNode) :=
  match n with
  | RElement (Host "p") _ cs => Some cs
  | _ => None
  end.

Definition option_bind {A B} (o : option A) (f : A -> option B) : option B :=
  match o with Some a => f a | None => None end.

(** What one block displays. *)
Record BlockView := mkBlockView {
  shown_icon : Component;
  shown_icon_role : option PropValue;
  shown_heading : list ReactNode;
  shown_body : list ReactNode
}.

Definition view_feature (n : ReactNode) : option BlockView :=
  option_bind (option_bind (subtree_at icon_path n) as_graphic) (fun g =>
  option_bind (option_bind (subtree_at heading_path n) as_heading) (fun h =>
  option_bind (option_bind (subtree_at body_path n) as_paragraph) (fun p =>
  Some (mkBlockView (fst g) (snd g) (snd h) p)))).

Definition view_block (b : ReactNode) : option BlockView :=
  match b with
  | RCall "Feature" _ r => view_feature r
  | _ => None
  end.

Definition class_of (n : ReactNode) : option PropValue :=
  match n with
  | RElement _ props _ => get_prop "className" props
  | _ => None
  end.

(** A descriptor fit for display: a title and a description with text. *)
Definition displayable (fi : FeatureItem) : bool :=
  negb (title fi =? EmptyString)
  && negb (textContent (description fi) =? EmptyString).

(** The element a block is when [Feature] is called on [fi] for the
    child of index [idx]. *)
Definition block_for (w : World Scope) (fi : FeatureItem) (idx : nat)
  : ReactNode :=
  RCall "Feature" (Some idx) (fst (Feature fi w)).

(** What a block has to display for the descriptor [fi]. *)
Definition expected_view (fi : FeatureItem) : BlockView :=
  mkBlockView (Svg fi) (Some (PStr "img")) [RText (title fi)]
    [description fi].

(** The section around a row of blocks. *)
Definition section_around (blocks : list ReactNode) : ReactNode :=
  RElement (Host "section") [("className", PStyle "features")]
    [ RElement (Host "div") [("className", PStr "container")]
        [ RElement (Host "div") [("className", PStr "row")] blocks ] ].

End HomepageFeaturesModule.

(** ** [docusaurus.config.ts] *)

Module DocusaurusConfig.
Import JS.
Local Open Scope eval_scope.

(** The values an object literal of the configuration is made of.  [JRef]
    is a member of an imported module ([prismThemes.github]); the numbers
    of the file are integers. *)
Inductive JSValue :=
| JBool (b : bool)
| JNum (n : Z)
| JStr (s : string)
| JRegExp (source : string)
| JRef (module_ member : string)
| JArr (elems : list JSValue)
| JObj (fields : list (string * JSValue)).

(** The module binds nothing the configuration reads back. *)
Definition Scope : Type := unit.

Definition presets : JSValue :=
  JArr
    [ JArr
        [ JStr "classic";
          JObj
            [ ("docs",
               JObj
                 [ ("sidebarPath", JStr "./sidebars.ts");
                   ("editUrl",
                    JStr "https://github.com/protekt/protekt-docs/tree/main/") ]);
              ("blog",
               JObj
                 [ ("showReadingTime", JBool true);
                   ("feedOptions",
                    JObj [ ("type", JArr [JStr "rss"; JStr "atom"]);
                           ("xslt", JBool true) ]);
                   ("editUrl",
                    JStr "https://github.com/facebook/docusaurus/tree/main/packages/create-docusaurus/templates/shared/");
                   ("onInlineTags", JStr "warn");
                   ("onInlineAuthors", JStr "warn");
                   ("onUntruncatedBlogPosts", JStr "warn") ]);
              ("theme",
               JObj [ ("customCss", JStr "./src/css/custom.css") ]) ] ] ].

Definition plugins : JSValue :=
  JArr
    [ JArr
        [ JStr "@easyops-cn/docusaurus-search-local";
          JObj
            [ ("indexDocs", JBool true);
              ("indexBlog", JBool true);
              ("indexPages", JBool false);
              ("searchResultLimits", JNum 8);
              ("searchResultContextMaxLength", JNum 50);
              ("explicitSearchResultPath", JBool true);
              ("language", JArr [JStr "en"]);
              ("useAllContextsWithNoSearchContext", JBool false);
              ("ignoreFiles", JArr [JRegExp "(?:^|\/)_"]);
              ("removeDefaultStopWordFilter", JBool true) ] ] ].

Definition navbar : JSValue :=
  JObj
    [ ("title", JStr "Protekt");
      ("logo", JObj [ ("alt", JStr "Protekt Logo");
                      ("src", JStr "img/logo.svg") ]);
      ("items",
       JArr
         [ JObj [ ("type", JStr "docSidebar");
                  ("sidebarId", JStr "tutorialSidebar");
                  ("position", JStr "left");
                  ("label", JStr "Documentation") ];
           JObj [ ("type", JStr "dropdown");
                  ("label", JStr "API");
                  ("position", JStr "left");
                  ("items",
                   JArr
                     [ JObj [ ("label", JStr "API Reference");
                              ("to", JStr "/docs/api/authentication") ];
                       JObj [ ("label", JStr "SDKs");
                              ("to", JStr "/docs/sdks/javascript") ] ]) ];
           JObj [ ("type", JStr "search");
                  ("position", JStr "right") ];
           JObj [ ("href", JStr "https://github.com/protekt/protekt-docs");
                  ("label", JStr "GitHub");
                  ("position", JStr "right") ];
           JObj [ ("href", JStr "https://dashboard.protekt.dev");
                  ("label", JStr "Dashboard");
                  ("position", JStr "right") ] ]) ].

Definition footer_links : JSValue :=
  JArr
    [ JObj [ ("title", JStr "Docs");
             ("items",
              JArr [ JObj [ ("label", JStr "Tutorial");
                            ("to", JStr "/docs/intro") ] ]) ];
      JObj [ ("title", JStr "Community");
             ("items",
              JArr
                [ JObj [ ("label", JStr "Stack Overflow");
                         ("href",
                          JStr "https://stackoverflow.com/questions/tagged/docusaurus") ];
                  JObj [ ("label", JStr "Discord");
                         ("href", JStr "https://discordapp.com/invite/docusaurus") ];
                  JObj [ ("label", JStr "X");
                         ("href", JStr "https://x.com/docusaurus") ] ]) ];
      JObj [ ("title", JStr "More");
             ("items",
              JArr
                [ JObj [ ("label", JStr "Blog");
                         ("to", JStr "/blog") ];
                  JObj [ ("label", JStr "GitHub");
                         ("href", JStr "https://github.com/facebook/docusaurus") ] ]) ] ].

(** The bytes between [Copyright ] and the year, as the file has them. *)
Definition copyright_sign : string :=
  String "195" (String "130" (String "194" (String "169" EmptyString))).

(** The template literal of [footer.copyright]. *)
Definition copyright_text (d : Date) : string :=
  "Copyright " ++ copyright_sign ++ " "
    ++ Number_toString (getFullYear d) ++ " Protekt Dev".

(** [const config: Config = { ... }].  The one call in the literal is
    [new Date()], in [themeConfig.footer.copyright]. *)
Definition config : Eval Scope JSValue :=
  d <- new_Date ;;
  ret
    (JObj
       [ ("title", JStr "Protekt Developer Documentation");
         ("tagline", JStr "Secure authentication made simple for developers");
         ("favicon", JStr "img/favicon.ico");
         ("future", JObj [ ("v4", JBool true) ]);
         ("url", JStr "https://dickson-mwendia.github.io");
         ("baseUrl", JStr "/protekt-docs/");
         ("organizationName", JStr "Dickson-Mwendia");
         ("projectName", JStr "protekt-docs");
         ("onBrokenLinks", JStr "throw");
         ("onBrokenMarkdownLinks", JStr "warn");
         ("i18n", JObj [ ("defaultLocale", JStr "en");
                         ("locales", JArr [JStr "en"]) ]);
         ("presets", presets);
         ("plugins", plugins);
         ("themeConfig",
          JObj
            [ ("image", JStr "img/docusaurus-social-card.jpg");
              ("navbar", navbar);
              ("footer",
               JObj [ ("style", JStr "dark");
                      ("links", footer_links);
                      ("copyright", JStr (copyright_text d)) ]);
              ("prism",
               JObj [ ("theme", JRef "prismThemes" "github");
                      ("darkTheme", JRef "prismThemes" "dracula") ]) ]) ]).

(** *** Reading a configuration value *)

(** Property access [v.k]. *)
Fixpoint lookup (k : string) (fields : list (string * JSValue))
  : option JSValue :=
  match fields with
  | [] => None
  | (k', x) :: rest => if k' =? k then Some x else lookup k rest
  end.

Definition get (k : string) (v : JSValue) : option JSValue :=
  match v with
  | JObj fields => lookup k fields
  | _ => None
  end.

(** Element access [v[i]]. *)
Definition at_index (i : nat) (v : JSValue) : option JSValue :=
  match v with
  | JArr elems => nth_error elems i
  | _ => None
  end.

Fixpoint get_path (path : list string) (v : JSValue) : option JSValue :=
  match path with
  | [] => Some v
  | k :: rest =>
      match get k v with
      | Some x => get_path rest x
      | None => None
      end
  end.

Definition elements (v : JSValue) : list JSValue :=
  match v with
  | JArr elems => elems
  | _ => []
  end.

(** The object with the value at [path] replaced by [nv]; unchanged when
    the path is not there. *)
Fixpoint with_path (path : list string) (nv : JSValue) (v : JSValue)
  : JSValue :=
  match path with
  | [] => nv
  | k :: rest =>
      match v with
      | JObj fields =>
          JObj (map (fun kv => if fst kv =? k
                               then (fst kv, with_path rest nv (snd kv))
                               else kv) fields)
      | _ => v
      end
  end.

Definition copyright_path : list string :=
  ["themeConfig"; "footer"; "copyright"].

(** *** Reporting severities *)

(** Modelled from the spec: the reaction of the site generator (an external
    framework, not part of the repository) to a reporting option:
    ["throw"] aborts the build, ["warn"] prints a warning and goes on. *)
Inductive ReportingSeverity := ignore | log | warn | throw.

Definition severity_of (v : JSValue) : option ReportingSeverity :=
  match v with
  | JStr "ignore" => Some ignore
  | JStr "log" => Some log
  | JStr "warn" => Some warn
  | JStr "throw" => Some throw
  | _ => None
  end.

(** The severity configured under the key [k]. *)
Definition reporting (k : string) (cfg : JSValue) : option ReportingSeverity :=
  match get k cfg with
  | Some v => severity_of v
  | None => None
  end.

Definition aborts_build (s : ReportingSeverity) : bool :=
  match s with throw => true | _ => false end.

Definition warns (s : ReportingSeverity) : bool :=
  match s with warn => true | _ => false end.

(** *** The options of the search plugin *)

(** A locale code: two lower-case letters, then any number of groups of a
    hyphen and letters or digits ([en], [zh-Hans]). *)
Definition is_lower (c : ascii) : bool :=
  let n := nat_of_ascii c in Nat.leb 97 n && Nat.leb n 122.

Definition is_alnum (c : ascii) : bool :=
  let n := nat_of_ascii c in
  (Nat.leb 97 n && Nat.leb n 122) || (Nat.leb 65 n && Nat.leb n 90)
  || (Nat.leb 48 n && Nat.leb n 57).

Fixpoint is_subtags (s : string) : bool :=
  match s with
  | EmptyString => true
  | String c rest =>
      (is_alnum c || (Ascii.eqb c "-")) && is_subtags rest
  end.

Definition is_locale_code (v : JSValue) : bool :=
  match v with
  | JStr (String a (String b rest)) =>
      is_lower a && is_lower b && is_subtags rest
  | _ => false
  end.

Definition is_pattern (v : JSValue) : bool :=
  match v with
  | JRegExp _ => true
  | _ => false
  end.

Definition is_boolean (v : JSValue) : bool :=
  match v with JBool _ => true | _ => false end.

Definition is_integer (v : JSValue) : bool :=
  match v with JNum _ => true | _ => false end.

Definition is_list_of (p : JSValue -> bool) (v : JSValue) : bool :=
  match v with JArr elems => forallb p elems | _ => false end.

(** The options object handed to the search plugin: [plugins[0][1]]. *)
Definition search_options (cfg : JSValue) : option JSValue :=
  match get "plugins" cfg with
  | Some ps =>
      match at_index 0 ps with
      | Some entry => at_index 1 entry
      | None => None
      end
  | None => None
  end.

Definition keys (v : JSValue) : list string :=
  match v with
  | JObj fields => map fst fields
  | _ => []
  end.

Definition has_type (k : string) (p : JSValue -> bool) (v : JSValue) : bool :=
  match get k v with
  | Some x => p x
  | None => false
  end.

(** *** The shapes of navigation entries *)

Definition has_string (k : string) (v : JSValue) : bool :=
  match get k v with
  | Some (JStr _) => true
  | _ => false
  end.

Definition has_key (k : string) (v : JSValue) : bool :=
  match get k v with
  | Some _ => true
  | None => false
  end.

Definition type_is (t : string) (v : JSValue) : bool :=
  match get "type" v with
  | Some (JStr t') => t' =? t
  | _ => false
  end.

(** A direct link: a label together with a target URL ([href]) or path
    ([to]), and nothing nested. *)
Definition is_direct_link (v : JSValue) : bool :=
  has_string "label" v
  && (has_string "to" v || has_string "href" v)
  && negb (has_key "items" v).

Definition is_nil {A} (l : list A) : bool :=
  match l with [] => true | _ => false end.

(** An entry as the navigation surface is described: a direct link, or a
    grouping whose [items] are entries again, at least one. *)
Fixpoint is_entry (v : JSValue) : bool :=
  match v with
  | JObj fields =>
      is_direct_link v
      || (fix find_items (fs : list (string * JSValue)) : bool :=
            match fs with
            | [] => false
            | (k, x) :: fs' =>
                if k =? "items" then
                  match x with
                  | JArr l =>
                      negb (is_nil l)
                      && (fix all (es : list JSValue) : bool :=
                            match es with
                            | [] => true
                            | e :: es' => is_entry e && all es'
                            end) l
                  | _ => false
                  end
                else find_items fs'
            end) fields
  | _ => false
  end.

(** A grouping of direct links: a non-empty [items] array of them. *)
Definition groups_links (v : JSValue) : bool :=
  match get "items" v with
  | Some (JArr l) => negb (is_nil l) && forallb is_direct_link l
  | _ => false
  end.

(** The dropdown of the navbar: labelled, grouping direct links. *)
Definition is_dropdown (v : JSValue) : bool :=
  type_is "dropdown" v && has_string "label" v && groups_links v.

(** A column of the footer: titled, grouping direct links. *)
Definition is_footer_column (v : JSValue) : bool :=
  has_string "title" v && groups_links v.

(** The navbar entry that opens a sidebar: a label and the sidebar's id,
    no URL, no path, nothing nested. *)
Definition is_doc_sidebar (v : JSValue) : bool :=
  type_is "docSidebar" v && has_string "label" v && has_string "sidebarId" v
  && negb (has_key "to" v) && negb (has_key "href" v)
  && negb (has_key "items" v).

(** The navbar entry that places the search box: no label, no target,
    nothing nested. *)
Definition is_search_box (v : JSValue) : bool :=
  type_is "search" v
  && negb (has_key "label" v) && negb (has_key "to" v)
  && negb (has_key "href" v) && negb (has_key "items" v).

Definition navbar_items (cfg : JSValue) : list JSValue :=
  match get_path ["themeConfig"; "navbar"; "items"] cfg with
  | Some v => elements v
  | None => []
  end.

Definition footer_link_entries (cfg : JSValue) : list JSValue :=
  match get_path ["themeConfig"; "footer"; "links"] cfg with
  | Some v => elements v
  | None => []
  end.

(** *** Runtimes of the build, to evaluate the configuration in *)

(** Mid-June 2025 and mid-June 2026. *)
Definition build_2025 : World Scope :=
  mkWorld (mkDate 1750000000000 2025) 0 tt.
Definition build_2026 : World Scope :=
  mkWorld (mkDate 1781536000000 2026) 0 tt.

(** A later moment of 2025, with another random state. *)
Definition build_2025_later : World Scope :=
  mkWorld (mkDate 1760000000000 2025) 42 tt.

(** The configuration as a build of 2025 sees it. *)
Definition config_2025 : JSValue := fst (config build_2025).

End DocusaurusConfig.

(** ** The access-control guide shipped with the component

    The JavaScript of the guide on role-based access control: the permission
    checks of the front end ([getUserPermissions], [hasPermission],
    [PostEditor], [Navigation], [App]) and of the back end
    ([requirePermission] and the routes it protects). *)

Module RbacGuide.

(** The values a decoded token holds: JSON.  Numbers are kept as integers;
    the code looks at a number only to see whether it is zero. *)
Inductive Value :=
| VNull
| VBool (b : bool)
| VNum (n : Z)
| VStr (s : string)
| VArr (elems : list Value)
| VObj (fields : list (string * Value)).

(** An object: its properties, each key once. *)
Definition Object : Type := list (string * Value).

(** The [TypeError]s the code can raise: reading a property of [undefined]
    or [null], and calling what is not a function. *)
Inductive TypeError :=
| PropertyOfNullish
| NotAFunction.

Inductive Result (A : Type) :=
| Ok (a : A)
| Throw (e : TypeError).
Arguments Ok {A} _.
Arguments Throw {A} _.

Definition rbind {A B} (m : Result A) (k : A -> Result B) : Result B :=
  match m with
  | Ok a => k a
  | Throw e => Throw e
  end.

Declare Scope result_scope.
Delimit Scope result_scope with result.
Notation "x <- m ;; k" := (rbind m (fun x => k))
  (at level 61, m at next level, right associativity) : result_scope.
Local Open Scope result_scope.


Definition raises {A} (m : Result A) : bool :=
  match m with
  | Ok _ => false
  | Throw _ => true
  end.

(** The custom claim of the token that carries the permissions. *)
Definition permissions_claim : string := "https://your-app.com/permissions".

(** [o[k]] on an object; [None] is [undefined]. *)
Fixpoint get_own (k : string) (o : Object) : option Value :=
  match o with
  | [] => None
  | (k', v) :: rest => if k' =? k then Some v else get_own k rest
  end.

(** [user[k]], where [user] may be [undefined] or [null] ([None]). *)
Definition member (user : option Object) (k : string)
  : Result (option Value) :=
  match user with
  | None => Throw PropertyOfNullish
  | Some o => Ok (get_own k o)
  end.

(** Truthiness: [null], [false], [0] and the empty string are falsy, like
    [undefined]; arrays and objects are truthy, empty ones too. *)
Definition truthy (v : Value) : bool :=
  match v with
  | VNull => false
  | VBool b => b
  | VNum n => negb (n =? 0)%Z
  | VStr s => negb (s =? EmptyString)
  | VArr _ => true
  | VObj _ => true
  end.

(** [a || b]. *)
Definition or_else (a : option Value) (b : Value) : Value :=
  match a with
  | Some v => if truthy v then v else b
  | None => b
  end.

(** [String.prototype.includes]: the argument occurs somewhere in the
    string. *)
Fixpoint is_substring (p s : string) : bool :=
  prefix p s
  || match s with
     | EmptyString => false
     | String _ s' => is_substring p s'
     end.

(** An array element equal to the string [s] ([SameValueZero]). *)
Definition same_string (s : string) (v : Value) : bool :=
  match v with
  | VStr t => t =? s
  | _ => false
  end.

(** [permissions.includes(permission)], on whatever [permissions] is: an
    array has [Array.prototype.includes], a string has
    [String.prototype.includes], no other value has a method of that name. *)
Definition includes (permissions : Value) (permission : string)
  : Result bool :=
  match permissions with
  | VArr elems => Ok (existsb (same_string permission) elems)
  | VStr s => Ok (is_substring permission s)
  | VNull => Throw PropertyOfNullish
  | VBool _ => Throw NotAFunction
  | VNum _ => Throw NotAFunction
  | VObj _ => Throw NotAFunction
  end.

(** [function getUserPermissions(user)]. *)
Definition getUserPermissions (user : option Object) : Result Value :=
  claim <- member user permissions_claim ;;
  Ok (or_else claim (VArr [])).

(** [function hasPermission(user, permission)]. *)
Definition hasPermission (user : option Object) (permission : string)
  : Result bool :=
  permissions <- getUserPermissions user ;;
  includes permissions permission.

(** *** Markup *)

(** JSX of the guide.  [MFalse] is the child [false] that [cond && <X/>]
    leaves when [cond] is false: it renders nothing.  [MCall] is the element
    of a component of the guide, kept with what the component returns. *)
Inductive Markup :=
| MText (s : string)
| MFalse
| MElem (tag : string) (attrs : list (string * Attr)) (children : list Markup)
| MCall (component : string) (attrs : list (string * Attr))
        (rendered : Markup)
with Attr :=
| AStr (s : string)
| AValue (v : Value)
| AUser (u : option Object)
| ANode (m : Markup).

(** [cond && (m)]. *)
Definition when (cond : bool) (m : Markup) : Markup :=
  if cond then m else MFalse.

(** [function PostEditor({ user, post })]. *)
Definition PostEditor (user : option Object) (post : Value) : Result Markup :=
  allowed <- hasPermission user "write:posts" ;;
  if negb allowed then
    Ok (MElem "div" [] [MText "You don't have permission to edit posts."])
  else
    Ok (MElem "EditPostForm" [("post", AValue post)] []).

(** *** The middleware *)

Record Request := mkRequest { req_user : option Object }.

(** What a middleware does with a request: hand it on ([next()]) or answer
    it ([res.status(s).json(body)]). *)
Inductive Outcome :=
| CallNext
| Respond (status : Z) (body : Value).

(** [function requirePermission(permission)], applied to a request. *)
Definition requirePermission (permission : string) (req : Request)
  : Result Outcome :=
  claim <- member (req_user req) permissions_claim ;;
  let permissions := or_else claim (VArr []) in
  included <- includes permissions permission ;;
  if negb included then
    Ok (Respond 403 (VObj [("error", VStr "Insufficient permissions")]))
  else
    Ok CallNext.

Inductive Method := GET | POST | DELETE.

Definition Method_eqb (a b : Method) : bool :=
  match a, b with
  | GET, GET => true
  | POST, POST => true
  | DELETE, DELETE => true
  | _, _ => false
  end.

(** The protected routes: method, route pattern, and the permission given
    to [requirePermission]. *)
Definition protected_routes : list (Method * string * string) :=
  [ (GET, "/api/posts", "read:posts");
    (POST, "/api/posts", "write:posts");
    (DELETE, "/api/posts/:id", "delete:all") ].

(** The guard registered for a method and a route pattern. *)
Fixpoint guard_in (routes : list (Method * string * string))
    (m : Method) (pattern : string) : option (Request -> Result Outcome) :=
  match routes with
  | [] => None
  | (m', pattern', permission) :: rest =>
      if Method_eqb m' m && (pattern' =? pattern)
      then Some (requirePermission permission)
      else guard_in rest m pattern
  end.

Definition guard (m : Method) (pattern : string)
  : option (Request -> Result Outcome) :=
  guard_in protected_routes m pattern.

(** *** Navigation and routing of the front end *)

Definition Link (to label : string) : Markup :=
  MElem "Link" [("to", AStr to)] [MText label].

Definition Route (path component : string) : Markup :=
  MElem "Route"
    [("path", AStr path); ("element", ANode (MElem component [] []))] [].

(** [function Navigation({ user })]. *)
Definition Navigation (user : option Object) : Result Markup :=
  permissions <- getUserPermissions user ;;
  read <- includes permissions "read:posts" ;;
  write <- includes permissions "write:posts" ;;
  delete <- includes permissions "delete:all" ;;
  Ok (MElem "nav" []
        [ Link "/dashboard" "Dashboard";
          when read (Link "/posts" "Posts");
          when write (Link "/create-post" "Create Post");
          when delete (Link "/admin" "Admin Panel") ]).

(** What [useAuth()] hands to [App]. *)
Record AuthState := mkAuthState {
  user : option Object;
  isAuthenticated : bool
}.

(** [function App()], for the state [useAuth()] returns. *)
Definition App (auth : AuthState) : Result Markup :=
  if negb (isAuthenticated auth) then
    Ok (MElem "Login" [] [])
  else
    claim <- member (user auth) permissions_claim ;;
    let permissions := or_else claim (VArr []) in
    nav <- Navigation (user auth) ;;
    read <- includes permissions "read:posts" ;;
    write <- includes permissions "write:posts" ;;
    delete <- includes permissions "delete:all" ;;
    Ok (MElem "div" []
          [ MCall "Navigation" [("user", AUser (user auth))] nav;
            MElem "Routes" []
              [ Route "/dashboard" "Dashboard";
                when read (Route "/posts" "PostList");
                when write (Route "/create-post" "CreatePost");
                when delete (Route "/admin" "AdminPanel") ] ]).

(** *** Reading markup *)

Definition children (m : Markup) : list Markup :=
  match m with
  | MElem _ _ cs => cs
  | MCall _ _ r => [r]
  | _ => []
  end.

Fixpoint get_attr (name : string) (attrs : list (string * Attr))
  : option Attr :=
  match attrs with
  | [] => None
  | (k, a) :: rest => if k =? name then Some a else get_attr name rest
  end.

(** The string attribute [name] of [m] when [m] is a [tag] element. *)
Definition attr_of (tag name : string) (m : Markup) : list string :=
  match m with
  | MElem t attrs _ =>
      if t =? tag then
        match get_attr name attrs with
        | Some (AStr s) => [s]
        | _ => []
        end
      else []
  | _ => []
  end.

(** The targets of the links a [nav] shows, in order. *)
Definition link_targets (nav : Markup) : list string :=
  flat_map (attr_of "Link" "to") (children nav).

(** The paths of the routes a [Routes] element mounts, in order. *)
Definition route_paths (routes : Markup) : list string :=
  flat_map (attr_of "Route" "path") (children routes).

Definition is_tag (tag : string) (m : Markup) : bool :=
  match m with
  | MElem t _ _ => t =? tag
  | _ => false
  end.

(** The links of the navigation inside what [App] returns. *)
Definition app_links (app : Markup) : list string :=
  flat_map (fun c => match c with
                     | MCall "Navigation" _ nav => link_targets nav
                     | _ => []
                     end) (children app).

(** The routes inside what [App] returns. *)
Definition app_routes (app : Markup) : list string :=
  flat_map (fun c => if is_tag "Routes" c then route_paths c else [])
    (children app).

Definition shows_form (m : Markup) : bool := is_tag "EditPostForm" m.

Definition passes (r : Result Outcome) : bool :=
  match r with
  | Ok CallNext => true
  | _ => false
  end.

(** *** The roles of the guide *)




(** The answer of [requirePermission] to a request it turns down. *)
Definition forbidden : Outcome :=
  Respond 403 (VObj [("error", VStr "Insufficient permissions")]).

(** The outcome of the guard registered for a route, on a request. *)
Definition guarded (m : Method) (pattern : string) (req : Request)
  : option bool :=
  option_map (fun g => passes (g req)) (guard m pattern).

Definition shows_link (target : string) (nav : Markup) : bool :=
  existsb (String.eqb target) (link_targets nav).

Definition user_with_scope_string : Object :=
  [(permissions_claim, VStr "unread:posts write:posts")].
Definition viewer_claims : Object :=
  [("sub", VStr "user_123"); (permissions_claim, VArr [VStr "read:posts"])].
Definition editor_claims : Object :=
  [(permissions_claim, VArr [VStr "write:posts"; VStr "read:posts"])].
Definition editor_auth : AuthState := mkAuthState (Some editor_claims) true.

End RbacGuide.

(** ** Further observations of the feature list *)

Module FeatureObservations.
Import React HomepageFeaturesModule.

(** The [key] of a block. *)
Definition key_of (b : ReactNode) : option nat :=
  match b with
  | RCall _ k _ => k
  | _ => None
  end.

(** The text a descriptor brings to the page. *)
Definition descriptor_text (fi : FeatureItem) : string :=
  title fi ++ textContent (description fi).

End FeatureObservations.

(** * Properties *)

Import JS React.

(** ** The runtime *)

Section ArrayMap.
Context {Heap A B : Type}.

Lemma mapi_from_length (g : A -> nat -> B) (l : list A) :
  forall idx, List.length (mapi_from idx g l) = List.length l.
Proof.
  induction l as [|a l IH]; intros idx; simpl.
  - reflexivity.
  - now rewrite IH.
Qed.

Lemma mapi_from_nth_error (g : A -> nat -> B) (l : list A) :
  forall idx i,
    nth_error (mapi_from idx g l) i
    = option_map (fun a => g a (idx + i)) (nth_error l i).
Proof.
  induction l as [|a l IH]; intros idx i.
  - destruct i; reflexivity.
  - destruct i as [|i]; simpl.
    + now rewrite Nat.add_0_r.
    + rewrite IH. now rewrite Nat.add_succ_r.
Qed.

Lemma mapi_from_map {C} (g : A -> nat -> B) (h : B -> C) (k : A -> C)
    (l : list A) :
  (forall a i, h (g a i) = k a) ->
  forall idx, map h (mapi_from idx g l) = map k l.
Proof.
  intros Hg. induction l as [|a l IH]; intros idx; simpl.
  - reflexivity.
  - now rewrite Hg, IH.
Qed.

(** A callback that returns without touching the runtime makes
    [Array_map] the pure indexed map, and leaves the runtime as it was. *)
Lemma Array_map_from_pure (f : A -> nat -> Eval Heap B) (g : A -> nat -> B) :
  (forall a i w, f a i w = (g a i, w)) ->
  forall l idx w, Array_map_from idx f l w = (mapi_from idx g l, w).
Proof.
  intros Hf. induction l as [|a l IH]; intros idx w; simpl.
  - reflexivity.
  - unfold bind. rewrite Hf, IH. reflexivity.
Qed.

Lemma repeat_eval_pure (m : Eval Heap A) (a : A) (w : World Heap) :
  m w = (a, w) ->
  forall n, repeat_eval n m w = (repeat a n, w).
Proof.
  intros Hm. induction n as [|n IH]; simpl.
  - reflexivity.
  - unfold bind. rewrite Hm, IH. reflexivity.
Qed.

End ArrayMap.

(** ** The feature list *)

Module FeatureProps.
Import HomepageFeaturesModule.

(** [Feature] builds its element from its props alone. *)
Lemma Feature_runs (fi : FeatureItem) (w w' : World Scope) :
  Feature fi w' = (fst (Feature fi w), w').
Proof. reflexivity. Qed.

(** The whole of what [HomepageFeatures] does: one block per element of
    the array, around them the section; the runtime is left as it was. *)
Lemma HomepageFeatures_runs (w : World Scope) :
  HomepageFeatures w
  = (section_around (mapi_from 0 (block_for w) (module_scope w)), w).
Proof.
  unfold HomepageFeatures, Array_map, bind, read_scope.
  rewrite (Array_map_from_pure _ (block_for w)).
  - reflexivity.
  - intros a i w'. reflexivity.
Qed.

Lemma view_block_for (w : World Scope) (fi : FeatureItem) (idx : nat) :
  view_block (block_for w fi idx) = Some (expected_view fi).
Proof. reflexivity. Qed.

(** C1. Whatever sequence of descriptors the array holds, of any length
    N >= 0, the rendered section has a row of exactly N blocks, and the
    block of index [i] is the [Feature] element of the descriptor of
    index [i], keyed by [i]: one block per descriptor, in the order of the
    input. *)
Theorem one_block_per_descriptor_in_order :
  forall w : World Scope,
  exists bs : list ReactNode,
    blocks_of (fst (HomepageFeatures w)) = Some bs
    /\ List.length bs = List.length (module_scope w)
    /\ forall i : nat,
         nth_error bs i
         = option_map (fun fi => block_for w fi i)
             (nth_error (module_scope w) i).
Proof.
  intros w. rewrite HomepageFeatures_runs.
  exists (mapi_from 0 (block_for w) (module_scope w)).
  split; [reflexivity|]. split.
  - apply mapi_from_length.
  - intros i. apply mapi_from_nth_error.
Qed.

(** C2. Block by block, in the order of the input, the output displays
    for each descriptor: its [Svg] component as a graphic carrying
    [role="img"], its title, unchanged, as the whole content of the
    heading, and its description, unchanged, as the whole content of the
    paragraph. *)
Theorem blocks_display_descriptor_fields :
  forall w : World Scope,
  exists bs : list ReactNode,
    blocks_of (fst (HomepageFeatures w)) = Some bs
    /\ map view_block bs
       = map (fun fi => Some (expected_view fi)) (module_scope w).
Proof.
  intros w. rewrite HomepageFeatures_runs.
  exists (mapi_from 0 (block_for w) (module_scope w)).
  split; [reflexivity|].
  apply mapi_from_map. intros fi i. apply view_block_for.
Qed.

(** C6. The output of [HomepageFeatures] is a function of the sequence of
    descriptors alone: two runtimes that hold the same sequence, whatever
    their clocks and random states, give the same output; an invocation
    leaves the runtime as it found it; and any number of invocations in a
    row give the same output each time. *)
Theorem HomepageFeatures_pure_and_deterministic :
  forall (l : list FeatureItem) (d1 d2 : Date) (r1 r2 : Z) (n : nat),
    let w1 := mkWorld d1 r1 l in
    let w2 := mkWorld d2 r2 l in
    fst (HomepageFeatures w1) = fst (HomepageFeatures w2)
    /\ snd (HomepageFeatures w1) = w1
    /\ repeat_eval n HomepageFeatures w1
       = (repeat (fst (HomepageFeatures w1)) n, w1).
Proof.
  intros l d1 d2 r1 r2 n w1 w2. split; [|split].
  - rewrite !HomepageFeatures_runs. reflexivity.
  - rewrite HomepageFeatures_runs. reflexivity.
  - apply repeat_eval_pure. rewrite HomepageFeatures_runs. reflexivity.
Qed.

(** C7. With no descriptor in the array, [HomepageFeatures] returns the
    section with an empty row, zero blocks, and touches nothing. *)
Theorem empty_sequence_gives_empty_row :
  forall (d : Date) (r : Z),
    let w := mkWorld d r ([] : Scope) in
    HomepageFeatures w = (section_around [], w)
    /\ blocks_of (fst (HomepageFeatures w)) = Some [].
Proof.
  intros d r w. split; reflexivity.
Qed.

(** C8. Loading the module binds [FeatureList] to a sequence of exactly
    three descriptors, each with a non-empty title and a description with
    non-empty text; rendering, any number of times, leaves that sequence
    as it is. *)
Theorem FeatureList_three_displayable_and_unchanged :
  forall (w : World Scope) (n : nat),
    let w0 := snd (load_module w) in
    module_scope w0 = FeatureList
    /\ List.length FeatureList = 3
    /\ forallb displayable FeatureList = true
    /\ module_scope (snd (repeat_eval n HomepageFeatures w0)) = FeatureList.
Proof.
  intros w n w0. repeat split.
  rewrite (repeat_eval_pure _ (fst (HomepageFeatures w0))).
  - reflexivity.
  - rewrite HomepageFeatures_runs. reflexivity.
Qed.

(** C10. For every descriptor, the element [Feature] returns has two
    regions, in this order: the centered region that holds the icon and
    nothing else, then the region that holds the heading, of level [h3]
    and with the title as content, followed by the paragraph with the
    description; icon, heading and paragraph come in this document
    order. *)
Theorem Feature_layout_icon_heading_paragraph :
  forall (fi : FeatureItem) (w : World Scope),
    let b := fst (Feature fi w) in
    option_map (fun r => (class_of r, map as_graphic (children_of r)))
      (subtree_at icon_region_path b)
    = Some (Some (PStr "text--center"),
            [Some (Svg fi, Some (PStr "img"))])
    /\ option_map (fun r => (map as_heading (children_of r),
                             map as_paragraph (children_of r)))
         (subtree_at text_region_path b)
       = Some ([Some (PStr "h3", [RText (title fi)]); None],
               [None; Some [description fi]])
    /\ map (fun r => subtree_at [0] r) (children_of b)
       = [subtree_at icon_path b; subtree_at heading_path b]
    /\ path_before icon_path heading_path = true
    /\ path_before heading_path body_path = true.
Proof.
  intros fi w b. repeat split.
Qed.

End FeatureProps.

(** ** The site configuration *)

Module ConfigProps.
Import DocusaurusConfig.

(** Evaluating the literal does not write to the runtime. *)
Lemma config_reads_only (w : World Scope) : snd (config w) = w.
Proof. reflexivity. Qed.

Lemma config_copyright (w : World Scope) :
  get_path copyright_path (fst (config w))
  = Some (JStr (copyright_text (now w))).
Proof. reflexivity. Qed.

(** C3. The configuration gives the two kinds of broken link distinct
    severities: [onBrokenLinks] is [throw], which aborts the build, and
    [onBrokenMarkdownLinks] is [warn], which warns and does not abort. *)
Theorem broken_links_throw_markdown_links_warn :
  forall w : World Scope,
    let cfg := fst (config w) in
    reporting "onBrokenLinks" cfg = Some throw
    /\ reporting "onBrokenMarkdownLinks" cfg = Some warn
    /\ aborts_build throw = true
    /\ aborts_build warn = false
    /\ warns warn = true
    /\ reporting "onBrokenLinks" cfg <> reporting "onBrokenMarkdownLinks" cfg.
Proof.
  intros w cfg. repeat (split; [reflexivity|]).
  cbn. discriminate.
Qed.

(** C4, as stated, fails: evaluated in 2025 and in 2026 the configuration
    is not the same object, the copyright line differs. *)
Lemma config_differs_across_years :
  fst (config build_2025) <> fst (config build_2026)
  /\ get_path copyright_path (fst (config build_2025))
     = Some (JStr ("Copyright " ++ copyright_sign ++ " 2025 Protekt Dev"))
  /\ get_path copyright_path (fst (config build_2026))
     = Some (JStr ("Copyright " ++ copyright_sign ++ " 2026 Protekt Dev")).
Proof.
  split; [|split; reflexivity].
  intros H. apply (f_equal (get_path copyright_path)) in H.
  vm_compute in H. discriminate H.
Qed.

(** C4, amended. Evaluating the configuration writes nothing; its value
    depends on the runtime through the calendar year of the clock only,
    and only in [themeConfig.footer.copyright]: two evaluations in the same
    year give identical objects, and any two evaluations give objects that
    are identical once the copyright line is set aside. *)
Theorem config_depends_on_year_only :
  forall w1 w2 : World Scope,
    snd (config w1) = w1
    /\ (getFullYear (now w1) = getFullYear (now w2) ->
        fst (config w1) = fst (config w2))
    /\ forall c : JSValue,
         with_path copyright_path c (fst (config w1))
         = with_path copyright_path c (fst (config w2)).
Proof.
  intros w1 w2. split; [reflexivity|]. split.
  - intros Hy. unfold config, bind, new_Date, ret, copyright_text. simpl.
    rewrite Hy. reflexivity.
  - intros c. reflexivity.
Qed.

Lemma config_depends_on_year_only_witness :
  getFullYear (now build_2025) = getFullYear (now build_2025_later)
  /\ valueOf (now build_2025) <> valueOf (now build_2025_later)
  /\ fst (config build_2025) = fst (config build_2025_later).
Proof.
  split; [reflexivity|]. split; [discriminate|].
  apply (proj1 (proj2
           (config_depends_on_year_only build_2025 build_2025_later))).
  reflexivity.
Defined.

(** C5, as stated, fails: the navbar holds the search box, an entry with
    no label, no target and nothing nested, and the sidebar entry, with a
    label and a sidebar id but neither URL nor path. *)
Lemma navbar_has_other_shapes :
  ~ (forall e,
       In e (navbar_items config_2025 ++ footer_link_entries config_2025) ->
       is_entry e = true)
  /\ nth_error (navbar_items config_2025) 2
     = Some (JObj [("type", JStr "search"); ("position", JStr "right")])
  /\ map is_entry (navbar_items config_2025)
     = [false; true; false; true; true].
Proof.
  split; [|split; reflexivity].
  intros H.
  specialize (H (JObj [("type", JStr "search"); ("position", JStr "right")])).
  assert (Hin : In (JObj [("type", JStr "search"); ("position", JStr "right")])
                   (navbar_items config_2025
                    ++ footer_link_entries config_2025)).
  { apply in_or_app. left. cbn. right. right. left. reflexivity. }
  specialize (H Hin). cbn in H. discriminate H.
Qed.

(** C5, amended. Every navbar entry is a direct link (a label with [to] or
    [href]), the dropdown grouping direct links, the sidebar entry (a label
    with a sidebar id) or the search box; every footer entry is a titled
    column grouping direct links. *)
Theorem navigation_entry_shapes :
  forall w : World Scope,
    let cfg := fst (config w) in
    forallb (fun e => is_direct_link e || is_dropdown e
                      || is_doc_sidebar e || is_search_box e)
      (navbar_items cfg) = true
    /\ forallb is_footer_column (footer_link_entries cfg) = true
    /\ List.length (navbar_items cfg) = 5
    /\ List.length (footer_link_entries cfg) = 3.
Proof.
  intros w cfg. repeat split.
Qed.

(** C9. The options object of the search plugin has exactly the ten keys
    named, and their values are: booleans for the six flags, integers for
    the two limits, a list of locale codes for [language] and a list of
    patterns for [ignoreFiles]. *)
Theorem search_plugin_options_and_types :
  forall w : World Scope,
  exists opts : JSValue,
    search_options (fst (config w)) = Some opts
    /\ keys opts
       = [ "indexDocs"; "indexBlog"; "indexPages"; "searchResultLimits";
           "searchResultContextMaxLength"; "explicitSearchResultPath";
           "language"; "useAllContextsWithNoSearchContext"; "ignoreFiles";
           "removeDefaultStopWordFilter" ]
    /\ forallb (fun k => has_type k is_boolean opts)
         [ "indexDocs"; "indexBlog"; "indexPages";
           "explicitSearchResultPath"; "useAllContextsWithNoSearchContext";
           "removeDefaultStopWordFilter" ] = true
    /\ forallb (fun k => has_type k is_integer opts)
         [ "searchResultLimits"; "searchResultContextMaxLength" ] = true
    /\ has_type "language" (is_list_of is_locale_code) opts = true
    /\ has_type "ignoreFiles" (is_list_of is_pattern) opts = true.
Proof.
  intros w. eexists. split; [reflexivity|]. repeat split.
Qed.

End ConfigProps.

(** ** More on the feature list *)

Module FeatureMore.
Import HomepageFeaturesModule FeatureObservations.

Lemma keys_of_blocks (w : World Scope) (l : list FeatureItem) :
  forall idx,
    map key_of (mapi_from idx (block_for w) l)
    = map Some (seq idx (List.length l)).
Proof.
  induction l as [|fi l IH]; intros idx; simpl.
  - reflexivity.
  - now rewrite IH.
Qed.

Lemma NoDup_map_Some {A} (l : list A) :
  NoDup l -> NoDup (map Some l).
Proof.
  induction 1 as [|a l Hn Hd IH]; simpl; constructor.
  - rewrite in_map_iff. intros (b & Hb & Hin).
    injection Hb as ->. contradiction.
  - exact IH.
Qed.

Lemma text_of_block (w : World Scope) (fi : FeatureItem) (idx : nat) :
  textContent (block_for w fi idx) = descriptor_text fi.
Proof. reflexivity. Qed.

(** X1. The keys of the blocks are their indices, 0 to N-1 in order, so no two
    blocks of a row share a key. *)
Theorem block_keys_are_distinct_indices :
  forall w : World Scope,
  exists bs : list ReactNode,
    blocks_of (fst (HomepageFeatures w)) = Some bs
    /\ map key_of bs = map Some (seq 0 (List.length (module_scope w)))
    /\ NoDup (map key_of bs).
Proof.
  intros w. rewrite FeatureProps.HomepageFeatures_runs.
  exists (mapi_from 0 (block_for w) (module_scope w)).
  split; [reflexivity|]. rewrite keys_of_blocks. split; [reflexivity|].
  apply NoDup_map_Some, seq_NoDup.
Qed.

(** X2. The text of the rendered section is the titles and the descriptions of
    the descriptors, one after the other in the order of the array: the
    components add no text and drop none. *)
Theorem section_text_is_descriptor_text :
  forall w : World Scope,
    textContent (fst (HomepageFeatures w))
    = String.concat EmptyString (map descriptor_text (module_scope w)).
Proof.
  intros w. rewrite FeatureProps.HomepageFeatures_runs.
  cbn [fst section_around textContent map].
  rewrite (mapi_from_map (block_for w) textContent descriptor_text).
  - reflexivity.
  - intros fi i. apply text_of_block.
Qed.

End FeatureMore.

(** ** The access-control guide *)

Module RbacProps.
Import RbacGuide.
Local Open Scope result_scope.

(** *** Substrings *)

Lemma prefix_iff (p s : string) :
  prefix p s = true <-> exists b, s = p ++ b.
Proof.
  revert s. induction p as [|c p IH]; intros s.
  - destruct s; simpl; (split; [intros _; eexists; reflexivity | reflexivity]).
  - destruct s as [|d s]; simpl.
    + split; [discriminate | intros (b & Hb); discriminate].
    + destruct (ascii_dec c d) as [->|Hcd].
      * rewrite IH. split; intros (b & Hb); exists b.
        -- now rewrite Hb.
        -- now injection Hb.
      * split; [discriminate|]. intros (b & Hb).
        injection Hb as Hd _. now subst.
Qed.

Lemma is_substring_iff (p s : string) :
  is_substring p s = true <-> exists a b, s = a ++ p ++ b.
Proof.
  split.
  - induction s as [|c s IH]; cbn [is_substring]; intros H;
      apply orb_true_iff in H; destruct H as [H|H].
    + apply prefix_iff in H. destruct H as (b & Hb).
      now exists EmptyString, b.
    + discriminate H.
    + apply prefix_iff in H. destruct H as (b & Hb).
      now exists EmptyString, b.
    + destruct (IH H) as (a & b & Hab).
      exists (String c a), b. simpl. now rewrite Hab.
  - intros (a & b & Hab). subst s. induction a as [|c a IH].
    + change (EmptyString ++ p ++ b) with (p ++ b).
      assert (Hp : prefix p (p ++ b) = true)
        by (apply prefix_iff; now exists b).
      destruct (p ++ b); cbn [is_substring]; now rewrite Hp.
    + change (String c a ++ p ++ b) with (String c (a ++ p ++ b)).
      cbn [is_substring]. rewrite IH. apply orb_true_r.
Qed.

(** *** Shared steps *)


Lemma same_string_iff (p : string) (v : Value) :
  same_string p v = true <-> v = VStr p.
Proof.
  destruct v; simpl; try (split; [discriminate | intros H; discriminate H]).
  rewrite String.eqb_eq. split; intros H; [now subst | now injection H].
Qed.

Lemma includes_array (elems : list Value) (p : string) :
  includes (VArr elems) p = Ok true <-> In (VStr p) elems.
Proof.
  simpl. split.
  - intros H. injection H as H. apply existsb_exists in H.
    destruct H as (v & Hin & Hv). apply same_string_iff in Hv. now subst.
  - intros H. f_equal. apply existsb_exists. exists (VStr p).
    split; [exact H | now apply same_string_iff].
Qed.

(** Whether [includes] raises depends on the value, not on the string
    looked for. *)
Lemma includes_cases (v : Value) :
  (exists e, forall p, includes v p = Throw e)
  \/ (forall p, exists b, includes v p = Ok b).
Proof.
  destruct v; simpl; try (left; eexists; intros; reflexivity);
    right; intros p; eexists; reflexivity.
Qed.

Lemma array_claim_membership_step (o : Object) (elems : list Value)
    (p : string) :
  get_own permissions_claim o = Some (VArr elems) ->
  (hasPermission (Some o) p = Ok true <-> In (VStr p) elems)
  /\ raises (hasPermission (Some o) p) = false.
Proof.
  intros H.
  unfold hasPermission, getUserPermissions. cbn [member rbind].
  rewrite H. cbn [or_else truthy]. split.
  - apply includes_array.
  - reflexivity.
Qed.

Lemma requirePermission_step (u : option Object) (p : string) :
  requirePermission p (mkRequest u)
  = rbind (hasPermission u p)
      (fun allowed => Ok (if allowed then CallNext else forbidden)).
Proof.
  destruct u as [o|]; [|reflexivity].
  unfold requirePermission, hasPermission, getUserPermissions.
  cbn [member rbind req_user].
  destruct (includes _ p) as [[|]|e]; reflexivity.
Qed.



(** X4. When the permissions claim is an array, a user holds a permission
    exactly when the array has that very string as an element; the check
    does not raise. *)
Theorem array_claim_is_membership :
  forall (o : Object) (elems : list Value) (p : string),
    get_own permissions_claim o = Some (VArr elems) ->
    (hasPermission (Some o) p = Ok true <-> In (VStr p) elems)
    /\ raises (hasPermission (Some o) p) = false.
Proof.
  intros o elems p H. now apply array_claim_membership_step.
Qed.

Lemma array_claim_is_membership_witness :
  hasPermission (Some viewer_claims) "read:posts" = Ok true
  <-> In (VStr "read:posts") [VStr "read:posts"].
Proof.
  apply (proj1 (array_claim_is_membership viewer_claims
                  [VStr "read:posts"] "read:posts" eq_refl)).
Defined.

(** X5. When the permissions claim is a non-empty string, the check is
    [String.prototype.includes]: a user holds every permission that occurs
    anywhere in that string, the empty permission among them. *)
Theorem string_claim_is_substring_match :
  forall (o : Object) (s p : string),
    get_own permissions_claim o = Some (VStr s) ->
    (s =? EmptyString) = false ->
    (hasPermission (Some o) p = Ok true <-> exists a b, s = a ++ p ++ b)
    /\ hasPermission (Some o) EmptyString = Ok true.
Proof.
  intros o s p H Hs.
  unfold hasPermission, getUserPermissions. cbn [member rbind].
  rewrite H. cbn [or_else truthy]. rewrite Hs. cbn [negb includes]. split.
  - rewrite <- is_substring_iff. split; intros E.
    + now injection E.
    + now rewrite E.
  - f_equal. apply is_substring_iff. now exists EmptyString, s.
Qed.

Lemma string_claim_is_substring_match_witness :
  hasPermission (Some user_with_scope_string) "read:posts" = Ok true
  <-> exists a b, "unread:posts write:posts" = a ++ "read:posts" ++ b.
Proof.
  apply (proj1 (string_claim_is_substring_match user_with_scope_string
                  "unread:posts write:posts" "read:posts" eq_refl eq_refl)).
Defined.

(** X6. [hasPermission] raises exactly when the user is [undefined] (or
    [null]) or the permissions claim is [true], a non-zero number or an
    object; which permission is asked for makes no difference. *)
Theorem hasPermission_raises_iff :
  forall (u : option Object) (p : string),
    raises (hasPermission u p) = true
    <-> (u = None
         \/ exists o v,
              u = Some o
              /\ get_own permissions_claim o = Some v
              /\ (v = VBool true
                  \/ (exists n, v = VNum n /\ n <> 0%Z)
                  \/ exists fields, v = VObj fields)).
Proof.
  intros u p. split.
  - destruct u as [o|]; [|now left]. intros H. right.
    unfold hasPermission, getUserPermissions in H. cbn [member rbind] in H.
    destruct (get_own permissions_claim o) as [v|] eqn:E;
      [|discriminate H].
    exists o, v. split; [reflexivity|]. split; [exact E|].
    destruct v as [|b|n|s|l|fs]; cbn in H; try discriminate H.
    + destruct b; [now left | discriminate H].
    + right; left. exists n. split; [reflexivity|].
      intros ->. discriminate H.
    + destruct (s =? EmptyString); discriminate H.
    + right; right. now exists fs.
  - intros [->|(o & v & -> & E & Hv)]; [reflexivity|].
    unfold hasPermission, getUserPermissions. cbn [member rbind].
    rewrite E. destruct Hv as [->|[(n & -> & Hn)|(fs & ->)]].
    + reflexivity.
    + cbn. destruct (Z.eqb_spec n 0); [contradiction | reflexivity].
    + reflexivity.
Qed.

(** X7. The middleware takes the decision [hasPermission] takes: it calls
    [next] when [hasPermission] is true for the user of the request,
    answers 403 with the error body when it is false, and raises what
    [hasPermission] raises. *)
Theorem requirePermission_decides_like_hasPermission :
  forall (u : option Object) (p : string),
    requirePermission p (mkRequest u)
    = (allowed <- hasPermission u p ;;
       Ok (if allowed then CallNext else forbidden)).
Proof.
  intros u p. apply requirePermission_step.
Qed.

(** X8. A link of the navigation and the API route that asks for the same
    permission go together: for every user for whom the navigation and the
    editor render, the Posts link is shown exactly when GET /api/posts lets
    the user through, the Create Post link and the edit form exactly when
    POST /api/posts does, the Admin Panel link exactly when
    DELETE /api/posts/:id does; the Dashboard link is always shown. *)
Theorem links_shown_match_routes_allowed :
  forall (u : option Object) (post : Value) (nav ed : Markup),
    Navigation u = Ok nav ->
    PostEditor u post = Ok ed ->
    guarded GET "/api/posts" (mkRequest u) = Some (shows_link "/posts" nav)
    /\ guarded POST "/api/posts" (mkRequest u)
       = Some (shows_link "/create-post" nav)
    /\ guarded POST "/api/posts" (mkRequest u) = Some (shows_form ed)
    /\ guarded DELETE "/api/posts/:id" (mkRequest u)
       = Some (shows_link "/admin" nav)
    /\ shows_link "/dashboard" nav = true.
Proof.
  intros [o|] post nav ed Hn He; [|discriminate Hn].
  unfold guarded, guard. cbn [guard_in protected_routes Method_eqb andb
    String.eqb Ascii.eqb Bool.eqb option_map].
  unfold Navigation, PostEditor, hasPermission, getUserPermissions,
    requirePermission in *.
  cbn [member rbind req_user] in *.
  generalize dependent (or_else (get_own permissions_claim o) (VArr [])).
  intros v Hn He.
  destruct (includes v "read:posts") as [r|]; [|discriminate Hn].
  destruct (includes v "write:posts") as [w|]; [|discriminate Hn].
  destruct (includes v "delete:all") as [d|]; [|discriminate Hn].
  cbn [rbind] in *. injection Hn as <-.
  destruct r, w, d; cbn in He; injection He as <-; repeat split.
Qed.

Lemma links_shown_match_routes_allowed_witness :
  exists nav ed : Markup,
    Navigation (Some editor_claims) = Ok nav
    /\ PostEditor (Some editor_claims) VNull = Ok ed
    /\ guarded POST "/api/posts" (mkRequest (Some editor_claims))
       = Some (shows_form ed)
    /\ guarded DELETE "/api/posts/:id" (mkRequest (Some editor_claims))
       = Some (shows_link "/admin" nav).
Proof.
  eexists. eexists.
  split; [reflexivity|]. split; [reflexivity|].
  pose proof (links_shown_match_routes_allowed (Some editor_claims) VNull
                _ _ eq_refl eq_refl) as (_ & _ & H3 & H4 & _).
  split; [exact H3 | exact H4].
Defined.

(** X9. Whatever [App] renders, the links of its navigation and the routes
    it mounts are the same paths in the same order, so no link leads to a
    route that is not there; the dashboard is among them exactly when the
    user is authenticated. *)
Theorem App_links_are_its_routes :
  forall (auth : AuthState) (tree : Markup),
    App auth = Ok tree ->
    app_links tree = app_routes tree
    /\ existsb (String.eqb "/dashboard") (app_links tree)
       = isAuthenticated auth.
Proof.
  intros [u [|]] tree H; unfold App in H; cbn [isAuthenticated negb user] in H.
  - destruct u as [o|]; [|discriminate H].
    unfold Navigation, getUserPermissions in H. cbn [member rbind] in H.
    generalize dependent (or_else (get_own permissions_claim o) (VArr [])).
    intros v H.
    destruct (includes v "read:posts") as [r|]; [|discriminate H].
    destruct (includes v "write:posts") as [w|]; [|discriminate H].
    destruct (includes v "delete:all") as [d|]; [|discriminate H].
    cbn [rbind] in H. injection H as <-.
    destruct r, w, d; split; reflexivity.
  - injection H as <-. split; reflexivity.
Qed.

Lemma App_links_are_its_routes_witness :
  exists tree : Markup,
    App editor_auth = Ok tree
    /\ app_links tree = app_routes tree
    /\ app_links tree = ["/dashboard"; "/posts"; "/create-post"].
Proof.
  eexists. split; [reflexivity|]. split.
  - apply (proj1 (App_links_are_its_routes editor_auth _ eq_refl)).
  - reflexivity.
Defined.

(** X10. [App] shows the login page to whoever is not authenticated, even
    when there is no user object at all; once authenticated it raises
    exactly when the permission check on the user raises. *)
Theorem App_raises_only_behind_login :
  forall (auth : AuthState) (p : string),
    raises (App auth)
    = isAuthenticated auth && raises (hasPermission (user auth) p)
    /\ (isAuthenticated auth = false -> App auth = Ok (MElem "Login" [] [])).
Proof.
  intros [u [|]] p; unfold App; cbn [isAuthenticated negb user andb].
  - split; [|discriminate].
    destruct u as [o|]; [|reflexivity].
    unfold Navigation, hasPermission, getUserPermissions.
    cbn [member rbind].
    generalize (or_else (get_own permissions_claim o) (VArr [])). intros v.
    destruct (includes_cases v) as [(e & He)|Hok].
    + now rewrite !He.
    + destruct (Hok "read:posts") as (r & ->).
      destruct (Hok "write:posts") as (w & ->).
      destruct (Hok "delete:all") as (d & ->).
      destruct (Hok p) as (b & ->). reflexivity.
  - split; reflexivity.
Qed.

Lemma App_raises_only_behind_login_witness :
  App (mkAuthState None false) = Ok (MElem "Login" [] []).
Proof.
  apply (proj2 (App_raises_only_behind_login (mkAuthState None false)
                  "read:posts")).
  reflexivity.
Defined.

Lemma held_in_larger_array (l1 l2 : list Value) (p : string) :
  incl l1 l2 ->
  existsb (same_string p) l1 = true -> existsb (same_string p) l2 = true.
Proof.
  intros Hi H. apply existsb_exists in H. destruct H as (v & Hin & Hv).
  apply existsb_exists. exists v. split; [now apply Hi | exact Hv].
Qed.

(** X11. Access grows with the permissions: when the claims of two users are
    arrays and every element of the first is an element of the second, the
    second user holds every permission the first holds, passes every guard
    the first passes, and sees every link the first sees. *)
Theorem more_permissions_never_less_access :
  forall (o1 o2 : Object) (l1 l2 : list Value),
    get_own permissions_claim o1 = Some (VArr l1) ->
    get_own permissions_claim o2 = Some (VArr l2) ->
    incl l1 l2 ->
    (forall p, hasPermission (Some o1) p = Ok true ->
               hasPermission (Some o2) p = Ok true)
    /\ (forall p, requirePermission p (mkRequest (Some o1)) = Ok CallNext ->
                  requirePermission p (mkRequest (Some o2)) = Ok CallNext)
    /\ exists nav1 nav2,
         Navigation (Some o1) = Ok nav1
         /\ Navigation (Some o2) = Ok nav2
         /\ incl (link_targets nav1) (link_targets nav2).
Proof.
  intros o1 o2 l1 l2 H1 H2 Hi.
  assert (Hp : forall p, hasPermission (Some o1) p = Ok true ->
                         hasPermission (Some o2) p = Ok true).
  { intros p.
    rewrite (proj1 (array_claim_membership_step o1 l1 p H1)).
    rewrite (proj1 (array_claim_membership_step o2 l2 p H2)).
    apply Hi. }
  split; [exact Hp|]. split.
  - intros p. rewrite !requirePermission_step.
    specialize (Hp p).
    destruct (hasPermission (Some o1) p) as [[|]|]; try discriminate.
    intros _. now rewrite Hp.
  - unfold Navigation, getUserPermissions. cbn [member rbind].
    rewrite H1, H2. cbn [or_else truthy includes rbind].
    pose proof (held_in_larger_array l1 l2 "read:posts" Hi) as Hr.
    pose proof (held_in_larger_array l1 l2 "write:posts" Hi) as Hw.
    pose proof (held_in_larger_array l1 l2 "delete:all" Hi) as Hd.
    eexists. eexists. split; [reflexivity|]. split; [reflexivity|].
    destruct (existsb (same_string "read:posts") l1);
      [rewrite (Hr eq_refl)|];
      (destruct (existsb (same_string "write:posts") l1);
       [rewrite (Hw eq_refl)|]);
      (destruct (existsb (same_string "delete:all") l1);
       [rewrite (Hd eq_refl)|]);
      repeat match goal with
             | |- context [existsb ?f l2] => destruct (existsb f l2)
             end;
      intros x Hx; cbn in Hx |- *; tauto.
Qed.

Lemma more_permissions_never_less_access_witness :
  incl [VStr "read:posts"] [VStr "write:posts"; VStr "read:posts"]
  /\ hasPermission (Some viewer_claims) "read:posts" = Ok true
  /\ hasPermission (Some editor_claims) "read:posts" = Ok true.
Proof.
  assert (Hi : incl [VStr "read:posts"]
                 [VStr "write:posts"; VStr "read:posts"]).
  { intros x [<-|[]]. right. left. reflexivity. }
  split; [exact Hi|]. split; [reflexivity|].
  apply (proj1 (more_permissions_never_less_access viewer_claims
                  editor_claims _ _ eq_refl eq_refl Hi)).
  reflexivity.
Defined.


End RbacProps.
